(** * aace::alexa::AudioPlayer — the platform audio playback bridge

    A shallow embedding of
    [modules/alexa/platform/include/AACE/Alexa/AudioPlayer.h]:
    the [PlayerActivity] enumeration and its stream rendering
    ([operator<<]), the [TIME_UNKNOWN] sentinel, the bridge object with its
    weak reference to the Engine interface, and the way calls on the bridge
    are bound (one virtual hook, three non-virtual members). *)

From Stdlib Require Import ZArith String List Lia.
From stdpp Require Import base option gmap.
Import ListNotations.

Local Open Scope Z_scope.

(** ** The parts of the C++ standard library the header relies on *)

Module std.

(** [std::ostream], seen through the characters written to it so far. *)
Definition ostream : Type := string.

(** [stream << "literal"]: the characters of the literal are appended. *)
Definition put (stream : ostream) (literal : string) : ostream :=
  String.append stream literal.

(** [std::shared_ptr<T>]: null, or a strong reference to the object with
    the given identity.  Identities are never reused. *)
Inductive shared_ptr : Type :=
| nullptr
| SharedTo (id : positive).

(** [std::weak_ptr<T>]: empty (default constructed), or a non-owning
    reference to the object with the given identity. *)
Inductive weak_ptr : Type :=
| empty
| WeakTo (id : positive).

(** [std::weak_ptr<T>::weak_ptr(const std::shared_ptr<T>&)] and the
    assignment of a [shared_ptr] to a [weak_ptr]. *)
Definition weak_of (p : shared_ptr) : weak_ptr :=
  match p with
  | nullptr => empty
  | SharedTo id => WeakTo id
  end.

Section Store.

(** The objects of type [T] that are still alive (strong count above
    zero) are given as a finite map from identities. *)
Variable T : Type.

(** [std::weak_ptr<T>::expired()]. *)
Definition expired (live : gmap positive T) (w : weak_ptr) : bool :=
  match w with
  | empty => true
  | WeakTo id => bool_decide (live !! id = None)
  end.

(** [std::weak_ptr<T>::lock()]: a strong reference when the object is
    alive, null otherwise. *)
Definition lock (live : gmap positive T) (w : weak_ptr) : shared_ptr :=
  if expired live w then nullptr
  else match w with
       | empty => nullptr
       | WeakTo id => SharedTo id
       end.

(** [explicit operator bool()] of a [shared_ptr]. *)
Definition to_bool (p : shared_ptr) : bool :=
  match p with
  | nullptr => false
  | SharedTo _ => true
  end.
End Store.

Arguments expired {T} live w.
Arguments lock {T} live w.

End std.

(** ** [enum class PlayerActivity] *)

Inductive PlayerActivity : Type :=
| IDLE
| PLAYING
| STOPPED
| PAUSED
| BUFFER_UNDERRUN
| FINISHED.

(** The six enumerators, in declaration order. *)
Definition enumerators : list PlayerActivity :=
  [IDLE; PLAYING; STOPPED; PAUSED; BUFFER_UNDERRUN; FINISHED].

(** The enumeration has no explicit underlying type and no initialisers:
    its underlying type is [int] and the enumerators count up from zero.
    An object of the enumeration type holds any value of the underlying
    type, so the argument of [operator<<] is modelled by that value. *)
Definition to_underlying (state : PlayerActivity) : Z :=
  match state with
  | IDLE => 0
  | PLAYING => 1
  | STOPPED => 2
  | PAUSED => 3
  | BUFFER_UNDERRUN => 4
  | FINISHED => 5
  end.

Definition is_int (v : Z) : Prop := - 2 ^ 31 <= v < 2 ^ 31.

(** The [switch] of [operator<<]: the literal of the case label that
    equals [state], or [None] when no label does (the switch has no
    [default:]). *)
Definition switch_case (state : Z) : option string :=
  if state =? to_underlying IDLE then Some "IDLE"%string
  else if state =? to_underlying PLAYING then Some "PLAYING"%string
  else if state =? to_underlying STOPPED then Some "STOPPED"%string
  else if state =? to_underlying PAUSED then Some "PAUSED"%string
  else if state =? to_underlying BUFFER_UNDERRUN then Some "BUFFER_UNDERRUN"%string
  else if state =? to_underlying FINISHED then Some "FINISHED"%string
  else None.

(** [std::ostream& operator<<(std::ostream&, const PlayerActivity&)]. *)
Definition operator_ltlt (stream : std.ostream) (state : Z) : std.ostream :=
  match switch_case state with
  | Some literal => std.put stream literal
  | None => stream
  end.

(** What [operator<<] adds to an empty stream for an enumerator. *)
Definition rendering (state : PlayerActivity) : string :=
  operator_ltlt EmptyString (to_underlying state).

(** ** The bridge object and the world it runs in *)

(** [static const int64_t TIME_UNKNOWN = -1;] *)
Definition TIME_UNKNOWN : Z := -1.


(** Modelled from the spec: [AudioPlayerEngineInterface] is declared in
    [AlexaEngineInterfaces.h], which is not part of the sources at hand.
    The spec describes it as the engine-side target of the bridge's
    time-query pull (request/response, answered with a TimeValue); the two
    members are named after the bridge queries they answer.  An engine
    object is given by the answers it returns. *)
Record AudioPlayerEngineInterface : Type := {
  onGetPlayerPosition : Z;
  onGetPlayerDuration : Z
}.

(** The data members of [class AudioPlayer]. *)
Record AudioPlayer : Type := {
  m_audioPlayerEngineInterface : std.weak_ptr
}.

(** [AudioPlayer() = default;]: the weak reference is default
    constructed, that is, empty. *)
Definition AudioPlayer_ctor : AudioPlayer :=
  {| m_audioPlayerEngineInterface := std.empty |}.

(** A call that reached an engine object. *)
Inductive EngineCall : Type :=
| CallGetPlayerPosition (id : positive)
| CallGetPlayerDuration (id : positive).

Definition target (c : EngineCall) : positive :=
  match c with
  | CallGetPlayerPosition id => id
  | CallGetPlayerDuration id => id
  end.

Section Bridge.

(** The data members the platform's subclass of [AudioPlayer] adds. *)
Variable Platform : Type.

Record World : Type := {
  engines : gmap positive AudioPlayerEngineInterface;
  this : AudioPlayer;
  derived : Platform;
  calls : list EngineCall
}.

(** Member functions: readers and writers of the world; [None] stands
    for undefined behaviour (a null pointer dereferenced). *)
Definition M (A : Type) : Type := World -> option (A * World).

Definition ret {A : Type} (a : A) : M A := fun w => Some (a, w).

Definition bind {A B : Type} (c : M A) (k : A -> M B) : M B :=
  fun w =>
    match c w with
    | Some (a, w') => k a w'
    | None => None
    end.

Definition get_this : M AudioPlayer := fun w => Some (this w, w).

Definition set_this (b : AudioPlayer) : M unit :=
  fun w =>
    Some (tt, {| engines := engines w; this := b;
                 derived := derived w; calls := calls w |}).

(** [w.lock()] against the engine objects alive now. *)
Definition lock (wp : std.weak_ptr) : M std.shared_ptr :=
  fun w => Some (std.lock (engines w) wp, w).

(** [p->member()]: undefined when [p] is null or its object is gone. *)
Definition arrow (p : std.shared_ptr) (event : positive -> EngineCall)
    (member : AudioPlayerEngineInterface -> Z) : M Z :=
  fun w =>
    match p with
    | std.nullptr => None
    | std.SharedTo id =>
        match engines w !! id with
        | Some engine =>
            Some (member engine,
                  {| engines := engines w; this := this w;
                     derived := derived w;
                     calls := calls w ++ [event id] |})
        | None => None
        end
    end.

End Bridge.

Arguments engines {Platform} w.
Arguments this {Platform} w.
Arguments derived {Platform} w.
Arguments calls {Platform} w.
Arguments ret {Platform A} a w.
Arguments bind {Platform A B} c k w.
Arguments get_this {Platform} w.
Arguments set_this {Platform} b w.
Arguments lock {Platform} wp w.
Arguments arrow {Platform} p event member w.

Notation "'let*' x ':=' c 'in' k" := (bind c (fun x => k))
  (at level 10, x name, c at level 100, k at level 200).

(** *** How a call on the bridge is bound *)

(** The member functions [class AudioPlayer] declares. *)
Inductive Member : Type :=
| Member_destructor
| Member_playerActivityChanged
| Member_getPlayerPosition
| Member_getPlayerDuration
| Member_setEngineInterface.

(** Whether the declaration of the member in the header carries
    [virtual]: [virtual ~AudioPlayer();] and
    [virtual void playerActivityChanged( PlayerActivity state ) {}] do;
    [int64_t getPlayerPosition();], [int64_t getPlayerDuration();] and
    [void setEngineInterface( ... );] do not.  (The base class
    [aace::core::PlatformInterface] is taken to declare no member of
    these names.) *)
Definition is_virtual (m : Member) : bool :=
  match m with
  | Member_destructor => true
  | Member_playerActivityChanged => true
  | Member_getPlayerPosition => false
  | Member_getPlayerDuration => false
  | Member_setEngineInterface => false
  end.

(** The function that [bridge->m(...)] runs when [bridge] has static
    type [AudioPlayer]: [base] is the member of [AudioPlayer] and
    [declared] what the class of the object declares under the same name
    and signature, if anything.  A virtual member is bound to the final
    overrider; any other member is found by name in [AudioPlayer], and a
    declaration in the derived class only hides it from callers that use
    the derived type. *)
Definition bound {A : Type} (m : Member) (base : A) (declared : option A) : A :=
  if is_virtual m
  then match declared with
       | Some overrider => overrider
       | None => base
       end
  else base.

Section Members.

Variable Platform : Type.

(** [virtual void playerActivityChanged( PlayerActivity state ) {}] *)
Definition playerActivityChanged (state : PlayerActivity) : M Platform unit :=
  ret tt.

(** Modelled from the spec: the body of [AudioPlayer::setEngineInterface]
    is not part of the sources at hand (only its declaration is).  The
    spec: the attachment operation replaces the stored weak reference,
    without teardown of the old one. *)
Definition setEngineInterface (audioPlayerEngineInterface : std.shared_ptr)
    : M Platform unit :=
  set_this
    {| m_audioPlayerEngineInterface := std.weak_of audioPlayerEngineInterface |}.

(** Modelled from the spec: the body of [AudioPlayer::getPlayerPosition]
    is not part of the sources at hand (only its declaration is).  The
    spec: the time query is a pull from the bridge to the engine through
    the weak channel; an outbound call first resolves the weak reference
    and is skipped when the engine object no longer exists; with no
    channel the answer is [TIME_UNKNOWN]. *)
Definition getPlayerPosition : M Platform Z :=
  let* b := get_this in
  let* p := lock (m_audioPlayerEngineInterface b) in
  if std.to_bool p
  then arrow p CallGetPlayerPosition onGetPlayerPosition
  else ret TIME_UNKNOWN.

(** Modelled from the spec: the body of [AudioPlayer::getPlayerDuration]
    is not part of the sources at hand; as [getPlayerPosition]. *)
Definition getPlayerDuration : M Platform Z :=
  let* b := get_this in
  let* p := lock (m_audioPlayerEngineInterface b) in
  if std.to_bool p
  then arrow p CallGetPlayerDuration onGetPlayerDuration
  else ret TIME_UNKNOWN.

(** *** Classes derived from [AudioPlayer]

    What a platform class can declare with the names of the base
    members: an overrider of the one virtual function, and members of
    its own called [getPlayerPosition] and [getPlayerDuration], which
    hide the base members without overriding them (those are not
    virtual). *)
Record Class : Type := {
  override_playerActivityChanged : option (PlayerActivity -> M Platform unit);
  own_getPlayerPosition : option (M Platform Z);
  own_getPlayerDuration : option (M Platform Z)
}.

(** [bridge->playerActivityChanged(state)] through a reference of static
    type [AudioPlayer]: a virtual call, bound to the final overrider. *)
Definition call_playerActivityChanged (cls : Class) (state : PlayerActivity)
    : M Platform unit :=
  match override_playerActivityChanged cls with
  | Some overrider => overrider state
  | None => playerActivityChanged state
  end.

(** [bridge->getPlayerPosition()] and [bridge->getPlayerDuration()]
    through a reference of static type [AudioPlayer], on an object of
    class [cls]. *)
Definition call_getPlayerPosition (cls : Class) : M Platform Z :=
  bound Member_getPlayerPosition getPlayerPosition (own_getPlayerPosition cls).

Definition call_getPlayerDuration (cls : Class) : M Platform Z :=
  bound Member_getPlayerDuration getPlayerDuration (own_getPlayerDuration cls).

(** The engine pushes a sequence of activities, one call each. *)
Fixpoint push_all (cls : Class) (states : list PlayerActivity)
    : M Platform unit :=
  match states with
  | [] => ret tt
  | state :: rest =>
      let* _ := call_playerActivityChanged cls state in push_all cls rest
  end.

(** The outbound calls of the bridge toward the engine. *)
Inductive Outbound : Type :=
| GetPlayerPosition
| GetPlayerDuration.

Definition outbound (o : Outbound) : M Platform Z :=
  match o with
  | GetPlayerPosition => getPlayerPosition
  | GetPlayerDuration => getPlayerDuration
  end.

Fixpoint outbound_all (os : list Outbound) : M Platform (list Z) :=
  match os with
  | [] => ret []
  | o :: rest =>
      let* v := outbound o in
      let* vs := outbound_all rest in
      ret (v :: vs)
  end.

(** The engine object with identity [id] is destroyed. *)
Definition destroy (id : positive) (w : World Platform) : World Platform :=
  {| engines := delete id (engines w); this := this w;
     derived := derived w; calls := calls w |}.

End Members.

Arguments playerActivityChanged {Platform} state w.
Arguments setEngineInterface {Platform} audioPlayerEngineInterface w.
Arguments getPlayerPosition {Platform} w.
Arguments getPlayerDuration {Platform} w.
Arguments override_playerActivityChanged {Platform} c.
Arguments own_getPlayerPosition {Platform} c.
Arguments own_getPlayerDuration {Platform} c.
Arguments call_playerActivityChanged {Platform} cls state w.
Arguments call_getPlayerPosition {Platform} cls w.
Arguments call_getPlayerDuration {Platform} cls w.
Arguments push_all {Platform} cls states w.
Arguments outbound {Platform} o w.
Arguments outbound_all {Platform} os w.
Arguments destroy {Platform} id w.

(** A platform class that records every activity its hook receives. *)
Definition recorder : Class (list PlayerActivity) :=
  {| override_playerActivityChanged :=
       Some (fun state w =>
               Some (tt, {| engines := engines w; this := this w;
                            derived := derived w ++ [state];
                            calls := calls w |}));
     own_getPlayerPosition := None;
     own_getPlayerDuration := None |}.

(** A platform class that leaves the hook alone and declares time queries
    of its own. *)
Definition hiding_player : Class unit :=
  {| override_playerActivityChanged := None;
     own_getPlayerPosition := Some (ret 1000);
     own_getPlayerDuration := Some (ret 2000) |}.

(** Another such class, whose own time queries answer otherwise. *)
Definition other_hiding_player : Class unit :=
  {| override_playerActivityChanged := None;
     own_getPlayerPosition := Some (ret 3000);
     own_getPlayerDuration := Some (ret 4000) |}.


(** ** Vocabulary for the statements *)

(** The world after one more call has reached an engine object. *)
Definition reached {Platform : Type} (w : World Platform) (c : EngineCall)
    : World Platform :=
  {| engines := engines w; this := this w;
     derived := derived w; calls := calls w ++ [c] |}.

(** The world in which the bridge's stored reference is the one made from
    [p], everything else as in [w]. *)
Definition attached {Platform : Type} (p : std.shared_ptr) (w : World Platform)
    : World Platform :=
  {| engines := engines w;
     this := {| m_audioPlayerEngineInterface := std.weak_of p |};
     derived := derived w; calls := calls w |}.

(** The world in which the platform's own data is [d]. *)
Definition observed {Platform : Type} (d : Platform) (w : World Platform)
    : World Platform :=
  {| engines := engines w; this := this w; derived := d; calls := calls w |}.

Definition answer (o : Outbound) (e : AudioPlayerEngineInterface) : Z :=
  match o with
  | GetPlayerPosition => onGetPlayerPosition e
  | GetPlayerDuration => onGetPlayerDuration e
  end.

Definition event (o : Outbound) (id : positive) : EngineCall :=
  match o with
  | GetPlayerPosition => CallGetPlayerPosition id
  | GetPlayerDuration => CallGetPlayerDuration id
  end.

(** What a time query comes to, by cases on the stored reference and on
    the engine objects alive. *)
Definition time_query {Platform : Type} (o : Outbound) (w : World Platform)
    : option (Z * World Platform) :=
  match m_audioPlayerEngineInterface (this w) with
  | std.empty => Some (TIME_UNKNOWN, w)
  | std.WeakTo id =>
      match engines w !! id with
      | Some e => Some (answer o e, reached w (event o id))
      | None => Some (TIME_UNKNOWN, w)
      end
  end.

(** The value a computation returns, if it returns. *)
Definition value {Platform A : Type} (r : option (A * World Platform)) : option A :=
  match r with
  | Some (a, _) => Some a
  | None => None
  end.






(** Concrete worlds: a bridge just constructed, next to the given engine
    objects, in a platform class without data of its own. *)
Definition fresh_world (es : gmap positive AudioPlayerEngineInterface)
    : World unit :=
  {| engines := es; this := AudioPlayer_ctor; derived := tt; calls := [] |}.

Definition engine_playing : AudioPlayerEngineInterface :=
  {| onGetPlayerPosition := 1500; onGetPlayerDuration := 90000 |}.

Definition engine_other : AudioPlayerEngineInterface :=
  {| onGetPlayerPosition := 40; onGetPlayerDuration := 50 |}.

(** A bridge attached to engine object 1, which has then been destroyed. *)
Definition world_engine_destroyed : World unit :=
  destroy 1 (attached (std.SharedTo 1) (fresh_world {[ 1%positive := engine_playing ]})).

(** Two engine objects alive, none attached yet. *)
Definition world_two_engines : World unit :=
  fresh_world (<[ 2%positive := engine_other ]> {[ 1%positive := engine_playing ]}).

(** ** Chains of [operator<<] *)

(** [stream << s1 << s2 << ...]: the operator applied along a chain, from
    left to right, each application to the stream the one before
    returned. *)
Fixpoint write_all (stream : std.ostream) (states : list Z) : std.ostream :=
  match states with
  | [] => stream
  | state :: rest => write_all (operator_ltlt stream state) rest
  end.

(** Whether a value of the underlying type is the value of one of the
    declared enumerators. *)
Definition is_enumerator (state : Z) : bool :=
  existsb (fun e => state =? to_underlying e) enumerators.

(** The literal that the switch of [operator<<] hands to the stream for
    an enumerator. *)
Definition literal (e : PlayerActivity) : string :=
  default EmptyString (switch_case (to_underlying e)).

(** The characters handed to the stream along a chain over enumerators,
    literal after literal. *)
Definition handed (l : list PlayerActivity) : string :=
  String.concat EmptyString (map literal l).

(** * Properties *)

(** ** The rendering of [PlayerActivity] *)

Lemma enumerators_complete (state : PlayerActivity) : In state enumerators.
Proof. destruct state; simpl; tauto. Qed.

Lemma to_underlying_range (state : PlayerActivity) :
  0 <= to_underlying state <= 5.
Proof. destruct state; simpl; lia. Qed.

Lemma to_underlying_is_int (state : PlayerActivity) :
  is_int (to_underlying state).
Proof. unfold is_int. pose proof (to_underlying_range state). lia. Qed.

Lemma to_underlying_inj (a b : PlayerActivity) :
  to_underlying a = to_underlying b -> a = b.
Proof. destruct a, b; simpl; intros H; first [reflexivity | discriminate H]. Qed.

Lemma switch_case_outside (state : Z) :
  (forall e, state <> to_underlying e) -> switch_case state = None.
Proof.
  intros Hout. unfold switch_case.
  repeat match goal with
         | |- context [state =? to_underlying ?e] =>
             destruct (Z.eqb_spec state (to_underlying e)) as [Heq | _];
             [exfalso; exact (Hout e Heq) | ]
         end.
  reflexivity.
Qed.

Lemma switch_case_matches (state : Z) (literal : string) :
  switch_case state = Some literal ->
  exists e, state = to_underlying e /\ rendering e = literal.
Proof.
  unfold switch_case.
  repeat match goal with
         | |- context [state =? to_underlying ?e] =>
             destruct (Z.eqb_spec state (to_underlying e)) as [-> | _];
             [intros [= <-]; exists e; split; reflexivity | ]
         end.
  discriminate.
Qed.

Lemma rendering_inj (a b : PlayerActivity) :
  rendering a = rendering b -> a = b.
Proof. destruct a, b; intros H; first [reflexivity | discriminate H]. Qed.

(** C3: the rendering is total over the six enumerators: for each of
    them a case of the switch matches (never the fall-through), the
    literal written is not empty and is what [operator<<] appends to any
    stream; the six renderings are pairwise distinct, and the six
    enumerators are all there is. *)
Theorem rendering_total_distinct :
  (forall state : PlayerActivity,
     exists literal : string,
       switch_case (to_underlying state) = Some literal
       /\ literal <> EmptyString
       /\ rendering state = literal
       /\ forall stream,
            operator_ltlt stream (to_underlying state) = std.put stream literal)
  /\ List.NoDup (map rendering enumerators)
  /\ length enumerators = 6%nat
  /\ forall state : PlayerActivity, In state enumerators.
Proof.
  split; [| split; [| split]].
  - intros state; destruct state; eexists;
      (split; [reflexivity | split; [discriminate | split; [reflexivity |]]]);
      intros stream; reflexivity.
  - vm_compute.
    repeat (constructor; [simpl; intuition discriminate |]). constructor.
  - reflexivity.
  - exact enumerators_complete.
Qed.

(** C9: for each enumerator, what [operator<<] writes is the
    enumerator's own name. *)
Theorem rendering_is_enumerator_name :
  forall stream : std.ostream,
    operator_ltlt stream (to_underlying IDLE) = std.put stream "IDLE"
    /\ operator_ltlt stream (to_underlying PLAYING) = std.put stream "PLAYING"
    /\ operator_ltlt stream (to_underlying STOPPED) = std.put stream "STOPPED"
    /\ operator_ltlt stream (to_underlying PAUSED) = std.put stream "PAUSED"
    /\ operator_ltlt stream (to_underlying BUFFER_UNDERRUN)
       = std.put stream "BUFFER_UNDERRUN"
    /\ operator_ltlt stream (to_underlying FINISHED) = std.put stream "FINISHED".
Proof. intros stream. repeat split. Qed.

(** C10: for a value that is none of the six enumerators, no case of
    the switch matches; there is no default branch, so nothing is written
    and the stream comes back as it was. *)
Theorem operator_ltlt_outside_enumerators :
  forall (stream : std.ostream) (state : Z),
    (forall e : PlayerActivity, state <> to_underlying e) ->
    switch_case state = None /\ operator_ltlt stream state = stream.
Proof.
  intros stream state Hout.
  pose proof (switch_case_outside state Hout) as Hnone.
  split; [exact Hnone |].
  unfold operator_ltlt. rewrite Hnone. reflexivity.
Qed.

Lemma operator_ltlt_outside_enumerators_witness :
  (forall e : PlayerActivity, 6 <> to_underlying e)
  /\ is_int 6
  /\ switch_case 6 = None
  /\ operator_ltlt "state: "%string 6 = "state: "%string.
Proof.
  assert (Hout : forall e : PlayerActivity, 6 <> to_underlying e)
    by (intros e; destruct e; discriminate).
  split; [exact Hout |].
  split; [unfold is_int; lia |].
  exact (operator_ltlt_outside_enumerators "state: "%string 6 Hout).
Defined.

(** ** The bridge *)

Section BridgeFacts.

Variable Platform : Type.
Implicit Types (w : World Platform) (o : Outbound).

Lemma lock_expired (es : gmap positive AudioPlayerEngineInterface) wp :
  std.expired es wp = true -> std.lock es wp = std.nullptr.
Proof. intros H. unfold std.lock. rewrite H. reflexivity. Qed.

Lemma lock_alive (es : gmap positive AudioPlayerEngineInterface) id e :
  es !! id = Some e -> std.lock es (std.WeakTo id) = std.SharedTo id.
Proof.
  intros H. unfold std.lock, std.expired.
  rewrite bool_decide_eq_false_2; [reflexivity | congruence].
Qed.

Lemma lock_gone (es : gmap positive AudioPlayerEngineInterface) id :
  es !! id = None -> std.lock es (std.WeakTo id) = std.nullptr.
Proof.
  intros H. apply lock_expired. simpl. apply bool_decide_eq_true_2, H.
Qed.

(** Every outbound call is the time query read off the stored
    reference: in particular it always returns. *)
Lemma outbound_time_query o w : outbound o w = time_query o w.
Proof.
  unfold time_query.
  destruct o; simpl; unfold getPlayerPosition, getPlayerDuration,
    bind, get_this, lock;
    (destruct (m_audioPlayerEngineInterface (this w)) as [| id];
     [reflexivity |]);
    (destruct (engines w !! id) as [e |] eqn:Hid;
     [rewrite (lock_alive _ _ _ Hid); simpl; rewrite Hid; reflexivity
     |rewrite (lock_gone _ _ Hid); reflexivity]).
Qed.

Lemma time_query_expired o w :
  std.expired (engines w) (m_audioPlayerEngineInterface (this w)) = true ->
  time_query o w = Some (TIME_UNKNOWN, w).
Proof.
  unfold time_query, std.expired.
  destruct (m_audioPlayerEngineInterface (this w)) as [| id];
    [reflexivity |].
  intros H. apply bool_decide_eq_true_1 in H. rewrite H. reflexivity.
Qed.

Lemma destroy_expires id w :
  m_audioPlayerEngineInterface (this w) = std.WeakTo id ->
  std.expired (engines (destroy id w))
              (m_audioPlayerEngineInterface (this (destroy id w))) = true.
Proof.
  intros H. simpl. rewrite H. simpl.
  apply bool_decide_eq_true_2, lookup_delete_eq.
Qed.

End BridgeFacts.

(** C1: once the stored weak reference is expired (the engine object
    it referred to has been destroyed), every outbound call of the bridge
    is skipped: it returns (no undefined behaviour), answers
    [TIME_UNKNOWN], reaches no engine object and leaves the whole world,
    the bridge's own state included, as it was; so does any sequence of
    such calls. *)
Theorem expired_engine_outbound_noop :
  forall (Platform : Type) (w : World Platform),
    std.expired (engines w) (m_audioPlayerEngineInterface (this w)) = true ->
    getPlayerPosition w = Some (TIME_UNKNOWN, w)
    /\ getPlayerDuration w = Some (TIME_UNKNOWN, w)
    /\ forall os : list Outbound,
         outbound_all os w = Some (map (fun _ => TIME_UNKNOWN) os, w).
Proof.
  intros Platform w Hexp.
  assert (Hone : forall o, outbound o w = Some (TIME_UNKNOWN, w)).
  { intros o. rewrite outbound_time_query. apply time_query_expired, Hexp. }
  split; [exact (Hone GetPlayerPosition) |].
  split; [exact (Hone GetPlayerDuration) |].
  induction os as [| o os IH]; [reflexivity |].
  simpl. unfold bind at 1. rewrite Hone.
  unfold bind at 1. rewrite IH. reflexivity.
Qed.

Lemma expired_engine_outbound_noop_witness :
  std.expired (engines world_engine_destroyed)
              (m_audioPlayerEngineInterface (this world_engine_destroyed)) = true
  /\ getPlayerPosition world_engine_destroyed
     = Some (TIME_UNKNOWN, world_engine_destroyed)
  /\ getPlayerDuration world_engine_destroyed
     = Some (TIME_UNKNOWN, world_engine_destroyed)
  /\ forall os : list Outbound,
       outbound_all os world_engine_destroyed
       = Some (map (fun _ => TIME_UNKNOWN) os, world_engine_destroyed).
Proof.
  assert (Hexp : std.expired (engines world_engine_destroyed)
            (m_audioPlayerEngineInterface (this world_engine_destroyed)) = true)
    by (vm_compute; reflexivity).
  split; [exact Hexp |].
  exact (expired_engine_outbound_noop unit world_engine_destroyed Hexp).
Defined.

(** C2: attaching [A] and then [B] leaves the bridge exactly as
    attaching [B] alone does (the last write wins), and attaching the same
    channel twice is attaching it once.  An outbound call made afterwards
    runs against [B]'s reference: it either reaches no engine object at
    all, or reaches the live object [B] refers to; whenever [A] is another
    object than [B], no call reaches [A]'s. *)
Theorem setEngineInterface_last_write_wins :
  forall (Platform : Type) (w : World Platform) (A B : std.shared_ptr)
         (o : Outbound),
    (let* _ := setEngineInterface A in setEngineInterface B) w
      = Some (tt, attached B w)
    /\ setEngineInterface B w = Some (tt, attached B w)
    /\ (let* _ := setEngineInterface A in setEngineInterface A) w
       = setEngineInterface A w
    /\ (let* _ := setEngineInterface A in
        let* _ := setEngineInterface B in outbound o) w
       = outbound o (attached B w)
    /\ (outbound o (attached B w) = Some (TIME_UNKNOWN, attached B w)
        \/ exists b e,
             B = std.SharedTo b /\ engines w !! b = Some e
             /\ outbound o (attached B w)
                = Some (answer o e, reached (attached B w) (event o b)))
    /\ (forall a v w',
          A = std.SharedTo a -> A <> B ->
          outbound o (attached B w) = Some (v, w') ->
          forall c, In c (calls w') -> In c (calls w) \/ target c <> a).
Proof.
  intros Platform w A B o.
  assert (Hcases :
            outbound o (attached B w) = Some (TIME_UNKNOWN, attached B w)
            \/ exists b e,
                 B = std.SharedTo b /\ engines w !! b = Some e
                 /\ outbound o (attached B w)
                    = Some (answer o e, reached (attached B w) (event o b))).
  { rewrite outbound_time_query. unfold time_query. simpl.
    destruct B as [| b]; simpl; [left; reflexivity |].
    destruct (engines w !! b) as [e |] eqn:Hb;
      [right; exists b, e; split; [reflexivity | split; [exact Hb | reflexivity]]
      |left; reflexivity]. }
  repeat split; try reflexivity; [exact Hcases |].
  intros a v w' HA Hne Hrun c Hc.
  destruct Hcases as [Hskip | (b & e & HB & _ & Hcall)].
  - rewrite Hskip in Hrun. injection Hrun as _ <-. left. exact Hc.
  - rewrite Hcall in Hrun. injection Hrun as _ <-. simpl in Hc.
    apply in_app_or in Hc. destruct Hc as [Hold | [<- | []]];
      [left; exact Hold | right].
    intros Heq. apply Hne. rewrite HA, HB. f_equal.
    destruct o; simpl in Heq; congruence.
Qed.

Lemma setEngineInterface_last_write_wins_witness :
  std.SharedTo 1 <> std.SharedTo 2
  /\ value ((let* _ := setEngineInterface (std.SharedTo 1) in
             let* _ := setEngineInterface (std.SharedTo 2) in
             outbound GetPlayerPosition) world_two_engines)
     = Some (onGetPlayerPosition engine_other)
  /\ forall c,
       In c (calls (reached (attached (std.SharedTo 2) world_two_engines)
                            (CallGetPlayerPosition 2))) ->
       In c (calls world_two_engines) \/ target c <> 1%positive.
Proof.
  assert (Hne : std.SharedTo 1 <> std.SharedTo 2) by discriminate.
  split; [exact Hne |].
  split; [vm_compute; reflexivity |].
  pose proof (setEngineInterface_last_write_wins unit world_two_engines
                (std.SharedTo 1) (std.SharedTo 2) GetPlayerPosition)
    as (_ & _ & _ & _ & _ & Hnever).
  apply (Hnever 1%positive (onGetPlayerPosition engine_other)).
  - reflexivity.
  - exact Hne.
  - vm_compute; reflexivity.
Defined.

(** C4: a call of [playerActivityChanged] through the bridge is the
    platform's overrider applied to the pushed value, with nothing in
    between; so for every sequence of activities pushed by the engine a
    recording platform ends with exactly that sequence appended to its
    record, in push order, every push returning, the rest of the world
    untouched.  PLAYING, PAUSED, FINISHED is one such sequence. *)
Theorem playerActivityChanged_no_validation :
  (forall (Platform : Type)
          (overrider : PlayerActivity -> M Platform unit)
          (position duration : option (M Platform Z))
          (state : PlayerActivity) (w : World Platform),
     call_playerActivityChanged
       {| override_playerActivityChanged := Some overrider;
          own_getPlayerPosition := position;
          own_getPlayerDuration := duration |} state w
     = overrider state w)
  /\ (forall (states : list PlayerActivity) (w : World (list PlayerActivity)),
        push_all recorder states w
        = Some (tt, observed (derived w ++ states) w))
  /\ push_all recorder [PLAYING; PAUSED; FINISHED]
       {| engines := ∅; this := AudioPlayer_ctor; derived := []; calls := [] |}
     = Some (tt, {| engines := ∅; this := AudioPlayer_ctor;
                    derived := [PLAYING; PAUSED; FINISHED]; calls := [] |}).
Proof.
  split; [reflexivity |].
  split; [| reflexivity].
  induction states as [| state rest IH]; intros w.
  - simpl. unfold ret, observed. rewrite app_nil_r. destruct w; reflexivity.
  - simpl. unfold bind. simpl. rewrite IH. unfold observed. simpl.
    rewrite <- app_assoc. reflexivity.
Qed.

(** C8: the body of [AudioPlayer::playerActivityChanged] is empty: for
    every activity the call returns and the world after it is the world
    before it (stored engine reference, platform data, engine objects and
    the calls made so far); a class that does not override the hook gets
    exactly this. *)
Theorem playerActivityChanged_default_noop :
  forall (Platform : Type) (state : PlayerActivity) (w : World Platform)
         (position duration : option (M Platform Z)),
    playerActivityChanged state w = Some (tt, w)
    /\ call_playerActivityChanged
         {| override_playerActivityChanged := None;
            own_getPlayerPosition := position;
            own_getPlayerDuration := duration |} state w
       = Some (tt, w)
    /\ value ((let* _ := playerActivityChanged state in get_this) w)
       = Some (this w).
Proof. intros. repeat split. Qed.

(** C7: the defaulted constructor leaves the engine reference empty,
    and on a bridge on which [setEngineInterface] was never called
    [getPlayerPosition] (and [getPlayerDuration]) returns [TIME_UNKNOWN],
    which is -1, whatever engine objects exist. *)
Theorem fresh_bridge_time_unknown :
  m_audioPlayerEngineInterface AudioPlayer_ctor = std.empty
  /\ TIME_UNKNOWN = -1
  /\ forall (Platform : Type) (es : gmap positive AudioPlayerEngineInterface)
            (d : Platform) (cs : list EngineCall),
       getPlayerPosition
         {| engines := es; this := AudioPlayer_ctor; derived := d; calls := cs |}
       = Some (TIME_UNKNOWN,
               {| engines := es; this := AudioPlayer_ctor;
                  derived := d; calls := cs |})
       /\ getPlayerDuration
            {| engines := es; this := AudioPlayer_ctor; derived := d; calls := cs |}
          = Some (TIME_UNKNOWN,
                  {| engines := es; this := AudioPlayer_ctor;
                     derived := d; calls := cs |}).
Proof. repeat split. Qed.



(** The virtual call of the hook is the binding of a virtual member. *)
Lemma call_playerActivityChanged_bound (Platform : Type)
    (cls : Class Platform) (state : PlayerActivity) :
  call_playerActivityChanged cls state
  = bound Member_playerActivityChanged playerActivityChanged
      (override_playerActivityChanged cls) state.
Proof.
  unfold call_playerActivityChanged, bound. simpl.
  destruct (override_playerActivityChanged cls); reflexivity.
Qed.

(** C6, as stated, fails: two platform classes declare time queries of
    their own that answer differently (1000 against 3000 for the
    position, 2000 against 4000 for the duration), and yet a call through
    the bridge gives the same for both: it cannot be returning what each
    class's own query produces. *)
Lemma platform_time_queries_not_run :
  (exists own own',
     own_getPlayerPosition hiding_player = Some own
     /\ own_getPlayerPosition other_hiding_player = Some own'
     /\ value (own (fresh_world ∅)) = Some 1000
     /\ value (own' (fresh_world ∅)) = Some 3000)
  /\ (exists own own',
        own_getPlayerDuration hiding_player = Some own
        /\ own_getPlayerDuration other_hiding_player = Some own'
        /\ value (own (fresh_world ∅)) = Some 2000
        /\ value (own' (fresh_world ∅)) = Some 4000)
  /\ call_getPlayerPosition hiding_player (fresh_world ∅)
     = call_getPlayerPosition other_hiding_player (fresh_world ∅)
  /\ call_getPlayerDuration hiding_player (fresh_world ∅)
     = call_getPlayerDuration other_hiding_player (fresh_world ∅)
  /\ ~ (value (call_getPlayerPosition hiding_player (fresh_world ∅)) = Some 1000
        /\ value (call_getPlayerPosition other_hiding_player (fresh_world ∅))
           = Some 3000)
  /\ ~ (value (call_getPlayerDuration hiding_player (fresh_world ∅)) = Some 2000
        /\ value (call_getPlayerDuration other_hiding_player (fresh_world ∅))
           = Some 4000).
Proof.
  assert (Hp : call_getPlayerPosition hiding_player (fresh_world ∅)
               = call_getPlayerPosition other_hiding_player (fresh_world ∅))
    by reflexivity.
  assert (Hd : call_getPlayerDuration hiding_player (fresh_world ∅)
               = call_getPlayerDuration other_hiding_player (fresh_world ∅))
    by reflexivity.
  split; [do 2 eexists; repeat split |].
  split; [do 2 eexists; repeat split |].
  split; [exact Hp |]. split; [exact Hd |].
  split; intros [H1 H2].
  - rewrite Hp, H2 in H1. discriminate H1.
  - rewrite Hd, H2 in H1. discriminate H1.
Qed.

(** C6, amended: the two time queries are declared without [virtual],
    so a platform class cannot override them: whatever the members
    [AudioPlayer::getPlayerPosition] and [AudioPlayer::getPlayerDuration]
    do, and whatever the class of the object declares under those names,
    a call through the bridge runs the members of [AudioPlayer]; the
    hook, which is virtual, is the member that runs the platform's
    overrider. *)
Theorem time_queries_not_virtual :
  forall (Platform : Type) (position duration : M Platform Z)
         (declared : option (M Platform Z)) (cls : Class Platform)
         (hook overrider : PlayerActivity -> M Platform unit),
    bound Member_getPlayerPosition position declared = position
    /\ bound Member_getPlayerDuration duration declared = duration
    /\ call_getPlayerPosition cls = getPlayerPosition
    /\ call_getPlayerDuration cls = getPlayerDuration
    /\ bound Member_playerActivityChanged hook (Some overrider) = overrider.
Proof. intros. repeat split. Qed.

(** ** More on [operator<<]: what is written, and chains *)

Lemma append_cons (c : Ascii.ascii) (s t : string) :
  String.append (String c s) t = String c (String.append s t).
Proof. reflexivity. Qed.

Lemma append_empty_l (t : string) : String.append EmptyString t = t.
Proof. reflexivity. Qed.

Lemma append_empty_r (s : string) : String.append s EmptyString = s.
Proof.
  induction s as [| c s IH]; [reflexivity |].
  rewrite append_cons, IH. reflexivity.
Qed.



(** The switch by cases: either the value is that of an enumerator and
    its literal is chosen, or it lies outside 0..5 and nothing is. *)
Lemma switch_case_cases (state : Z) :
  (exists e, state = to_underlying e /\ switch_case state = Some (rendering e))
  \/ (switch_case state = None /\ (state < 0 \/ 5 < state)).
Proof.
  unfold switch_case.
  repeat match goal with
         | |- context [state =? to_underlying ?e] =>
             destruct (Z.eqb_spec state (to_underlying e)) as [-> | ?];
             [left; exists e; split; reflexivity | ]
         end.
  right. split; [reflexivity |]. simpl in *. lia.
Qed.

Lemma operator_ltlt_enumerator (stream : std.ostream) (e : PlayerActivity) :
  operator_ltlt stream (to_underlying e) = std.put stream (rendering e).
Proof. destruct e; reflexivity. Qed.

Lemma is_enumerator_spec (state : Z) :
  is_enumerator state = true <-> exists e, state = to_underlying e.
Proof.
  unfold is_enumerator. rewrite existsb_exists. split.
  - intros (e & _ & He). exists e. apply Z.eqb_eq, He.
  - intros (e & ->). exists e. split;
      [apply enumerators_complete | apply Z.eqb_refl].
Qed.


Lemma operator_ltlt_outside (stream : std.ostream) (state : Z) :
  switch_case state = None -> operator_ltlt stream state = stream.
Proof. intros H. unfold operator_ltlt. rewrite H. reflexivity. Qed.


Lemma literal_is_rendering (e : PlayerActivity) :
  switch_case (to_underlying e) = Some (literal e) /\ literal e = rendering e.
Proof. destruct e; split; reflexivity. Qed.

Lemma concat_cons (x : string) (xs : list string) :
  String.concat EmptyString (x :: xs)
  = String.append x (String.concat EmptyString xs).
Proof.
  destruct xs as [| y ys]; [symmetry; apply append_empty_r | reflexivity].
Qed.

(** No literal of the switch is the start of another, nor of another
    followed by more: from equal texts, equal first enumerators and equal
    rests. *)
Lemma literal_prefix_free (a b : PlayerActivity) (x y : string) :
  String.append (literal a) x = String.append (literal b) y ->
  a = b /\ x = y.
Proof.
  destruct a, b; intros H;
    cbv [literal default switch_case to_underlying Z.eqb Pos.eqb
         String.append] in H;
    first [discriminate H
          | split; [reflexivity |]; now inversion H].
Qed.

Lemma literal_not_empty_start (a : PlayerActivity) (x : string) :
  String.append (literal a) x <> EmptyString.
Proof.
  destruct a;
    cbv [literal default switch_case to_underlying Z.eqb Pos.eqb
         String.append];
    discriminate.
Qed.

Lemma handed_inj (l1 : list PlayerActivity) :
  forall l2 : list PlayerActivity, handed l1 = handed l2 -> l1 = l2.
Proof.
  unfold handed.
  induction l1 as [| a l1 IH]; intros [| b l2] H.
  - reflexivity.
  - cbn [map] in H. rewrite concat_cons in H.
    symmetry in H. destruct (literal_not_empty_start _ _ H).
  - cbn [map] in H. rewrite concat_cons in H.
    destruct (literal_not_empty_start _ _ H).
  - cbn [map] in H. rewrite !concat_cons in H.
    apply literal_prefix_free in H as [-> H].
    f_equal. exact (IH l2 H).
Qed.

(** X3: the literals of the switch tell the enumerators apart even
    without a separator: the characters that a chain over one sequence of
    enumerators hands to the stream differ from those handed over for any
    other sequence. *)
Theorem handed_distinguishes_sequences :
  forall l1 l2 : list PlayerActivity,
    l1 <> l2 -> handed l1 <> handed l2.
Proof.
  intros l1 l2 Hne Heq. apply Hne. exact (handed_inj l1 l2 Heq).
Qed.

Lemma handed_distinguishes_sequences_witness :
  [PLAYING; PAUSED] <> [PAUSED; PLAYING]
  /\ handed [PLAYING; PAUSED] <> handed [PAUSED; PLAYING].
Proof.
  assert (Hne : [PLAYING; PAUSED] <> [PAUSED; PLAYING]) by discriminate.
  split; [exact Hne |].
  exact (handed_distinguishes_sequences [PLAYING; PAUSED] [PAUSED; PLAYING] Hne).
Defined.

(** X6: in a chain, the values that are no enumerators contribute
    nothing: the chain writes what it writes with those values left
    out. *)
Theorem write_all_skips_other_values :
  forall (states : list Z) (stream : std.ostream),
    write_all stream states
    = write_all stream (List.filter is_enumerator states).
Proof.
  induction states as [| state rest IH]; intros stream; [reflexivity |].
  cbn [write_all List.filter].
  destruct (is_enumerator state) eqn:His.
  - cbn [write_all]. apply IH.
  - assert (Hnone : switch_case state = None).
    { destruct (switch_case_cases state) as [(e & -> & _) | [Hnone _]];
        [| exact Hnone].
      assert (is_enumerator (to_underlying e) = true)
        by (apply is_enumerator_spec; exists e; reflexivity).
      congruence. }
    rewrite (operator_ltlt_outside _ _ Hnone). apply IH.
Qed.
